(** * zootasks_utils: subject identifiers, hash ids and the dataset registry

    Shallow embedding of [src/zootasks_utils/_src/upload_utils.py]
    ([get_hash_id], the two [make_id_str] variants) and of
    [src/zootasks_utils/data.py] ([euclid_q1_morphology]). *)

From Stdlib Require Import ZArith List Lia Ascii String.
From Stdlib Require Import DecimalZ.
From stdpp Require Import base gmap list.
Import ListNotations.
Open Scope Z_scope.

(* ------------------------------------------------------------------ *)
(** ** Python values *)

(** A Python [str] is a sequence of code points (each in [0, 0x10FFFF]). *)
Definition text := list Z.

(** String literals of the source (all ASCII) as Python texts. *)
Definition pystr (s : string) : text :=
  List.map (fun a => Z.of_nat (nat_of_ascii a)) (list_ascii_of_string s).

Definition valid_code_point (c : Z) : Prop := 0 <= c <= 1114111.

(** Exceptions the modelled code can raise. *)
Inductive exn :=
| UnicodeEncodeError      (* str.encode() with the strict 'utf-8' codec *)
| InvalidOperationError   (* polars strict cast failure *)
| ColumnNotFoundError     (* polars pl.col on a missing column *)
| NotFoundLookupError.    (* plum dispatch: no make_id_str method for the argument *)

(** Python/polars computations that may raise. *)
Inductive result (A : Type) :=
| Ok (a : A)
| Err (e : exn).
Arguments Ok {A} a.
Arguments Err {A} e.

Definition bind {A B} (m : result A) (k : A -> result B) : result B :=
  match m with Ok a => k a | Err e => Err e end.

Notation "x <-? m ;; k" := (bind m (fun x => k))
  (at level 100, m at next level, right associativity).

(** [str(z)] / [f"{z}"] of a Python [int]: canonical decimal, with a
    leading '-' for negative numbers. *)
Fixpoint uint_text (u : Decimal.uint) : text :=
  match u with
  | Decimal.Nil => []
  | Decimal.D0 u => 48 :: uint_text u
  | Decimal.D1 u => 49 :: uint_text u
  | Decimal.D2 u => 50 :: uint_text u
  | Decimal.D3 u => 51 :: uint_text u
  | Decimal.D4 u => 52 :: uint_text u
  | Decimal.D5 u => 53 :: uint_text u
  | Decimal.D6 u => 54 :: uint_text u
  | Decimal.D7 u => 55 :: uint_text u
  | Decimal.D8 u => 56 :: uint_text u
  | Decimal.D9 u => 57 :: uint_text u
  end.

Definition py_int_str (z : Z) : text :=
  match Z.to_int z with
  | Decimal.Pos u => uint_text u
  | Decimal.Neg u => 45 :: uint_text u
  end.

(** [s.replace(old, new, count)]: left-to-right, non-overlapping
    replacement of at most [count] occurrences ([None]: all of them).
    [old] is non-empty at every call site; [fuel] bounds the scan. *)
Fixpoint replace_fuel (fuel : nat) (count : option nat) (old new s : text)
    : text :=
  match fuel with
  | O => s
  | S fuel' =>
      match s with
      | [] => []
      | c :: s' =>
          if bool_decide (count = Some O) then s
          else if bool_decide (old <> [] /\ firstn (length old) s = old) then
            new ++ replace_fuel fuel'
                      (option_map Nat.pred count) old new
                      (skipn (length old) s)
          else c :: replace_fuel fuel' count old new s'
      end
  end.

Definition replace (count : option nat) (old new s : text) : text :=
  replace_fuel (S (length s)) count old new s.

(* ------------------------------------------------------------------ *)
(** ** make_id_str, scalar variant (upload_utils.py, lines 41-68) *)

(** NumPy stores a Python [str] as a fixed-width unicode array element:
    trailing NUL code points are padding and are dropped when the
    element is read back. *)
Fixpoint strip_trailing_nul_rev (r : text) : text :=
  match r with
  | 0 :: r' => strip_trailing_nul_rev r'
  | _ => r
  end.

Definition np_str (s : text) : text := rev (strip_trailing_nul_rev (rev s)).

(** [np.char.replace(a, old, new)] on a scalar [str]: the text is
    converted to a 0-d unicode array, every occurrence is replaced, and
    the 0-d result formats as its element (again a fixed-width string). *)
Definition np_char_replace (a old new : text) : text :=
  np_str (replace None old new (np_str a)).

(** [tile_index: int | str]. *)
Inductive tile := TInt (z : Z) | TStr (s : text).

(** [f"{tile_index}"]. (CPython's limit on the digits of an int
    converted to str, 4300 by default, is not modelled.) *)
Definition fmt_tile (t : tile) : text :=
  match t with TInt z => py_int_str z | TStr s => s end.

Definition make_id_str_scalar (tile_index : tile) (object_id : text)
    (release_name : option text) : text :=
  let prefix := match release_name with
                | Some r => r ++ [95]        (* f"{release_name}_" *)
                | None => []
                end in
  let obj_id := np_char_replace object_id (pystr "-") (pystr "NEG") in
  prefix ++ (fmt_tile tile_index ++ [95] ++ obj_id).

(* ------------------------------------------------------------------ *)
(** ** make_id_str, batch variant (upload_utils.py, lines 71-98) *)

(** A polars cell: null, an integer or a string. *)
Inductive pval := PNull | PInt (z : Z) | PStr (s : text).

(** A [pl.DataFrame]: named columns of equal height. *)
Definition column := list pval.
Definition frame := list (text * column).

(** [pl.col(name)]. *)
Definition col (df : frame) (name : text) : result column :=
  match List.find (fun nc => bool_decide (fst nc = name)) df with
  | Some (_, c) => Ok c
  | None => Err ColumnNotFoundError
  end.

(** [.cast(str)]: never fails; null stays null; integers print in
    decimal. *)
Definition cast_str (v : pval) : option text :=
  match v with
  | PNull => None
  | PInt z => Some (py_int_str z)
  | PStr s => Some s
  end.

Definition int64_min : Z := - 2 ^ 63.
Definition int64_max : Z := 2 ^ 63 - 1.
Definition in_int64 (z : Z) : bool := (int64_min <=? z) && (z <=? int64_max).

Fixpoint digits_of (s : text) : option Decimal.uint :=
  match s with
  | [] => Some Decimal.Nil
  | c :: s' =>
      match digits_of s' with
      | None => None
      | Some u =>
          if c =? 48 then Some (Decimal.D0 u) else if c =? 49 then Some (Decimal.D1 u)
          else if c =? 50 then Some (Decimal.D2 u) else if c =? 51 then Some (Decimal.D3 u)
          else if c =? 52 then Some (Decimal.D4 u) else if c =? 53 then Some (Decimal.D5 u)
          else if c =? 54 then Some (Decimal.D6 u) else if c =? 55 then Some (Decimal.D7 u)
          else if c =? 56 then Some (Decimal.D8 u) else if c =? 57 then Some (Decimal.D9 u)
          else None
      end
  end.

(** Parsing of a string cell by the String -> Int64 cast, as Rust's
    integer parsing does it: an optional '-' or '+' followed by at least one
    decimal digit (no whitespace, no underscores). *)
Definition parse_int (s : text) : option Z :=
  match s with
  | 45 :: ((_ :: _) as ds) =>
      match digits_of ds with Some u => Some (Z.of_int (Decimal.Neg u)) | None => None end
  | 43 :: ((_ :: _) as ds) =>
      match digits_of ds with Some u => Some (Z.of_int (Decimal.Pos u)) | None => None end
  | _ :: _ =>
      match digits_of s with Some u => Some (Z.of_int (Decimal.Pos u)) | None => None end
  | [] => None
  end.

(** [.cast(pl.Int64)] (strict): a value that does not fit, or a string
    that does not parse, raises. *)
Definition cast_int64 (v : pval) : result (option Z) :=
  match v with
  | PNull => Ok None
  | PInt z => if in_int64 z then Ok (Some z) else Err InvalidOperationError
  | PStr s =>
      match parse_int s with
      | Some z => if in_int64 z then Ok (Some z) else Err InvalidOperationError
      | None => Err InvalidOperationError
      end
  end.

(** A strict cast over a whole column fails if any cell fails. *)
Fixpoint map_result {A B} (f : A -> result B) (l : list A) : result (list B) :=
  match l with
  | [] => Ok []
  | x :: l' => y <-? f x ;; ys <-? map_result f l' ;; Ok (y :: ys)
  end.

(** String [+] on series: null-propagating, element-wise. *)
Definition str_add (x y : option text) : option text :=
  match x, y with Some a, Some b => Some (a ++ b) | _, _ => None end.

Definition series_add (xs ys : list (option text)) : list (option text) :=
  zip_with str_add xs ys.

(** [.str.replace("-", "NEG")]: polars' default [n=1] replaces the first
    match only (the pattern "-" as a regex matches a literal hyphen). *)
Definition pl_str_replace (old new : text) (x : option text) : option text :=
  option_map (replace (Some 1%nat) old new) x.

Definition make_id_str_batch (df : frame) (include_release_name : bool)
    : result (list (option text)) :=
  ti <-? col df (pystr "tile_index") ;;
  prefix_expr <-?
    (if include_release_name then
       rn <-? col df (pystr "release_name") ;;
       Ok (List.map (fun v => str_add (cast_str v) (Some [95])) rn)
     else Ok (repeat (Some []) (length ti)))   (* pl.lit("") broadcast *) ;;
  oi <-? col df (pystr "object_id") ;;
  (* the plan resolves every column before any value is cast *)
  ti64 <-? map_result cast_int64 ti ;;
  let ti_str := List.map (option_map py_int_str) ti64 in
  let oi_str := List.map (fun v => pl_str_replace (pystr "-") (pystr "NEG")
                                     (cast_str v)) oi in
  Ok (series_add
        (series_add (series_add prefix_expr ti_str)
           (repeat (Some [95]) (length ti)))
        oi_str).

(** A batch given row by row: (release_name, tile_index, object_id). *)
Definition row := (pval * pval * pval)%type.

Definition frame_of_rows (rows : list row) : frame :=
  [(pystr "release_name", List.map (fun r => fst (fst r)) rows);
   (pystr "tile_index", List.map (fun r => snd (fst r)) rows);
   (pystr "object_id", List.map (fun r => snd r) rows)].

(* ------------------------------------------------------------------ *)
(** ** get_hash_id (upload_utils.py, lines 12-34) *)

(** [str.encode()]: the strict UTF-8 codec; a surrogate code point has
    no UTF-8 form and raises [UnicodeEncodeError]. *)
Definition utf8_char (c : Z) : result (list Z) :=
  if c <? 0x80 then Ok [c]
  else if c <? 0x800 then
    Ok [Z.lor 0xC0 (Z.shiftr c 6); Z.lor 0x80 (Z.land c 0x3F)]
  else if (0xD800 <=? c) && (c <=? 0xDFFF) then Err UnicodeEncodeError
  else if c <? 0x10000 then
    Ok [Z.lor 0xE0 (Z.shiftr c 12); Z.lor 0x80 (Z.land (Z.shiftr c 6) 0x3F);
        Z.lor 0x80 (Z.land c 0x3F)]
  else
    Ok [Z.lor 0xF0 (Z.shiftr c 18); Z.lor 0x80 (Z.land (Z.shiftr c 12) 0x3F);
        Z.lor 0x80 (Z.land (Z.shiftr c 6) 0x3F); Z.lor 0x80 (Z.land c 0x3F)].

Definition encode (s : text) : result (list Z) :=
  bs <-? map_result utf8_char s ;; Ok (List.concat bs).

Module SHA256.

(** 32-bit words as [Z] in [0, 2^32), wrap-around written out. *)
Definition w32 (x : Z) : Z := Z.land x (2 ^ 32 - 1).
Definition add (x y : Z) : Z := w32 (x + y).
Definition rotr (n x : Z) : Z := Z.lor (Z.shiftr x n) (w32 (Z.shiftl x (32 - n))).
Definition shr (n x : Z) : Z := Z.shiftr x n.
Definition lnot (x : Z) : Z := Z.lxor x (2 ^ 32 - 1).

Definition ch (x y z : Z) : Z := Z.lxor (Z.land x y) (Z.land (lnot x) z).
Definition maj (x y z : Z) : Z :=
  Z.lxor (Z.lxor (Z.land x y) (Z.land x z)) (Z.land y z).
Definition bsig0 (x : Z) : Z := Z.lxor (Z.lxor (rotr 2 x) (rotr 13 x)) (rotr 22 x).
Definition bsig1 (x : Z) : Z := Z.lxor (Z.lxor (rotr 6 x) (rotr 11 x)) (rotr 25 x).
Definition ssig0 (x : Z) : Z := Z.lxor (Z.lxor (rotr 7 x) (rotr 18 x)) (shr 3 x).
Definition ssig1 (x : Z) : Z := Z.lxor (Z.lxor (rotr 17 x) (rotr 19 x)) (shr 10 x).

(** Round constants (decimal): the first 32 fractional bits of the cube
    roots of the first 64 primes. *)
Definition K : list Z :=
  [1116352408; 1899447441; 3049323471; 3921009573; 961987163; 1508970993;
   2453635748; 2870763221; 3624381080; 310598401; 607225278; 1426881987;
   1925078388; 2162078206; 2614888103; 3248222580; 3835390401; 4022224774;
   264347078; 604807628; 770255983; 1249150122; 1555081692; 1996064986;
   2554220882; 2821834349; 2952996808; 3210313671; 3336571891; 3584528711;
   113926993; 338241895; 666307205; 773529912; 1294757372; 1396182291;
   1695183700; 1986661051; 2177026350; 2456956037; 2730485921; 2820302411;
   3259730800; 3345764771; 3516065817; 3600352804; 4094571909; 275423344;
   430227734; 506948616; 659060556; 883997877; 958139571; 1322822218;
   1537002063; 1747873779; 1955562222; 2024104815; 2227730452; 2361852424;
   2428436474; 2756734187; 3204031479; 3329325298].

(** The eight working variables / chaining values a..h. *)
Record hstate := HS { ha : Z; hb : Z; hc : Z; hd : Z; he : Z; hf : Z; hg : Z; hh : Z }.

Definition H0 : hstate :=
  HS 1779033703 3144134277 1013904242 2773480762
     1359893119 2600822924 528734635 1541459225.

Definition round (s : hstate) (kw : Z * Z) : hstate :=
  let '(k, w) := kw in
  let t1 := add (add (add (add (hh s) (bsig1 (he s))) (ch (he s) (hf s) (hg s))) k) w in
  let t2 := add (bsig0 (ha s)) (maj (ha s) (hb s) (hc s)) in
  HS (add t1 t2) (ha s) (hb s) (hc s) (add (hd s) t1) (he s) (hf s) (hg s).

(** Message schedule, built most-recent-first: W[t-2] is at index 1,
    W[t-7] at 6, W[t-15] at 14, W[t-16] at 15. *)
Fixpoint extend (n : nat) (wr : list Z) : list Z :=
  match n with
  | O => wr
  | S n' =>
      extend n' (add (add (add (ssig1 (nth 1 wr 0)) (nth 6 wr 0))
                          (ssig0 (nth 14 wr 0))) (nth 15 wr 0) :: wr)
  end.

Definition schedule (w16 : list Z) : list Z := rev (extend 48 (rev w16)).

(** Big-endian words of a 64-byte block. *)
Fixpoint be_words (fuel : nat) (bs : list Z) : list Z :=
  match fuel, bs with
  | S f, b0 :: b1 :: b2 :: b3 :: bs' =>
      (b0 * 2 ^ 24 + b1 * 2 ^ 16 + b2 * 2 ^ 8 + b3) :: be_words f bs'
  | _, _ => []
  end.

Definition compress (h : hstate) (block : list Z) : hstate :=
  let s := fold_left round (combine K (schedule (be_words 16 block))) h in
  HS (add (ha h) (ha s)) (add (hb h) (hb s)) (add (hc h) (hc s)) (add (hd h) (hd s))
     (add (he h) (he s)) (add (hf h) (hf s)) (add (hg h) (hg s)) (add (hh h) (hh s)).

Definition be_bytes (n : nat) (x : Z) : list Z :=
  List.map (fun i => Z.land (Z.shiftr x (8 * Z.of_nat (n - 1 - i))) 255) (seq 0 n).

Definition pad (msg : list Z) : list Z :=
  let len := Z.of_nat (length msg) in
  msg ++ [0x80] ++ repeat 0 (Z.to_nat ((55 - len) mod 64)) ++ be_bytes 8 (8 * len).

Fixpoint blocks (fuel : nat) (bs : list Z) : list (list Z) :=
  match fuel, bs with
  | S f, _ :: _ => firstn 64 bs :: blocks f (skipn 64 bs)
  | _, _ => []
  end.

Definition digest_bytes (h : hstate) : list Z :=
  be_bytes 4 (ha h) ++ be_bytes 4 (hb h) ++ be_bytes 4 (hc h) ++ be_bytes 4 (hd h) ++
  be_bytes 4 (he h) ++ be_bytes 4 (hf h) ++ be_bytes 4 (hg h) ++ be_bytes 4 (hh h).

(** [hashlib.sha256(data).digest()]. *)
Definition sha256 (msg : list Z) : list Z :=
  let p := pad msg in digest_bytes (fold_left compress (blocks (length p) p) H0).

End SHA256.

(** Lowercase hexadecimal digit and [.hexdigest()]. *)
Definition hex_digit (n : Z) : Z := if n <? 10 then 48 + n else 87 + n.

Definition hexdigest (bs : list Z) : text :=
  List.flat_map (fun b => [hex_digit (Z.shiftr b 4); hex_digit (Z.land b 15)]) bs.

Definition get_hash_id (subject_id extra_key : text) : result text :=
  let str_to_hash := subject_id ++ extra_key in
  bytes <-? encode str_to_hash ;;
  Ok (hexdigest (SHA256.sha256 bytes)).

(* ------------------------------------------------------------------ *)
(** ** Row-wise reading of the batch variant (compared with the code) *)

(** The spec's reading of the batch variant: the scalar variant applied
    to each row, with the release name passed iff [include_release_name]. *)
Definition tile_of_pval (v : pval) : tile :=
  match v with PInt z => TInt z | PStr s => TStr s | PNull => TStr [] end.

Definition text_of_pval (v : pval) : text :=
  match v with PStr s => s | PInt z => py_int_str z | PNull => [] end.

Definition row_scalar (include_release_name : bool) (r : row) : text :=
  let '(rn, t, o) := r in
  make_id_str_scalar (tile_of_pval t) (text_of_pval o)
    (if include_release_name then Some (text_of_pval rn) else None).

(** A tile index given as an Int64 integer or as its canonical text. *)
Definition int_like_tile (v : pval) : Prop :=
  exists z, in_int64 z = true /\ (v = PInt z \/ v = PStr (py_int_str z)).

(** Rows on which the amended row-wise reading is stated. *)
Definition row_ok (include_release_name : bool) (r : row) : Prop :=
  let '(rn, t, o) := r in
  (include_release_name = true -> exists s, rn = PStr s) /\
  int_like_tile t /\
  exists s, o = PStr s /\ (count_occ Z.eq_dec s 45%Z <= 1)%nat /\ last s <> Some 0.

(** Surrogate code points, which Python texts may hold but UTF-8 cannot. *)
Definition is_surrogate (c : Z) : bool := (0xD800 <=? c) && (c <=? 0xDFFF).

(** A lowercase hexadecimal digit character. *)
Definition lower_hex (c : Z) : Prop := (48 <= c <= 57) \/ (97 <= c <= 102).

(* ------------------------------------------------------------------ *)
(** ** The batch call on the Python heap (upload_utils.py, lines 96-98) *)

(** Objects the call reads or creates. *)
Inductive obj :=
| ODataFrame (df : frame)
| OSeries (name : text) (vals : list (option text)).

Record store := Store { heap : gmap nat obj; next_loc : nat }.

(** Every object lives below the allocation pointer. *)
Definition store_wf (st : store) : Prop :=
  forall k, (next_loc st <= k)%nat -> heap st !! k = None.

(** State and exceptions threaded together. *)
Definition M (A : Type) := store -> result A * store.

Definition mret {A} (a : A) : M A := fun st => (Ok a, st).
Definition mbind {A B} (m : M A) (k : A -> M B) : M B :=
  fun st => match m st with (Ok a, st') => k a st' | (Err e, st') => (Err e, st') end.

Notation "x <- m ;;; k" := (mbind m (fun x => k))
  (at level 100, m at next level, right associativity).

Definition lift {A} (r : result A) : M A := fun st => (r, st).

(** The argument is a DataFrame, or the dispatch to the batch method fails. *)
Definition load_frame (l : nat) : M frame := fun st =>
  match heap st !! l with
  | Some (ODataFrame df) => (Ok df, st)
  | _ => (Err NotFoundLookupError, st)
  end.

Definition alloc (o : obj) : M nat := fun st =>
  (Ok (next_loc st), Store (<[next_loc st := o]> (heap st)) (S (next_loc st))).

Definition pval_of_cell (x : option text) : pval :=
  match x with Some t => PStr t | None => PNull end.

(** [df.select(id_expr.alias("unique_id")).get_column("unique_id")]:
    [select] builds a new DataFrame, [get_column] a new Series. *)
Definition make_id_str_batch_io (l : nat) (include_release_name : bool) : M nat :=
  df <- load_frame l ;;;
  ids <- lift (make_id_str_batch df include_release_name) ;;;
  l_sel <- alloc (ODataFrame [(pystr "unique_id", List.map pval_of_cell ids)]) ;;;
  sel <- load_frame l_sel ;;;
  c <- lift (col sel (pystr "unique_id")) ;;;
  alloc (OSeries (pystr "unique_id") (List.map cast_str c)).

(* ------------------------------------------------------------------ *)
(** ** The dataset descriptor (data.py) *)

(** The fields of the object [pooch.create] returns that this code sets. *)
Record Pooch := MkPooch {
  pooch_path : text;
  pooch_base_url : text;
  pooch_registry : gmap text text }.

(** The Pooch constructor appends '/' to a base_url that lacks one. *)
Definition pooch_create (path base_url : text) (registry : gmap text text) : Pooch :=
  MkPooch path
    (if bool_decide (last base_url = Some 47) then base_url else base_url ++ [47])
    registry.

(** [os_cache] resolves the per-platform cache directory of an
    application name; it is an argument here. *)
Definition euclid_q1_morphology (os_cache : text -> text) : Pooch :=
  pooch_create (os_cache (pystr "eggs-zoo-connect"))
    (pystr "doi:10.5281/zenodo.15106473")
    {[ pystr "morphology_catalogue.parquet" :=
         pystr "md5:79e7880d5989e05ec23205782c30025a" ]}.

(** A store holding the two-row example batch of the spec at location 0. *)
Definition doc_store : store :=
  Store {[ 0%nat := ODataFrame
             (frame_of_rows [(PStr (pystr "Q1_R1"), PInt 1, PStr (pystr "a-1"));
                             (PStr (pystr "Q1_R1"), PInt 2, PStr (pystr "b-2"))]) ]} 1.

(** Helpers of the statements below. *)
(** Replacing every occurrence of a single code point. *)
Definition repl_char (c : Z) (new : text) (s : text) : text :=
  List.flat_map (fun x => if x =? c then new else [x]) s.

Definition tile_z (v : pval) : option Z :=
  match v with PInt z => Some z | PStr s => parse_int s | PNull => None end.

Definition lower_hexb (c : Z) : bool :=
  ((48 <=? c) && (c <=? 57)) || ((97 <=? c) && (c <=? 102)).

(** One row of the batch expression, given that row's Int64 tile value:
    prefix + tile.cast(str) + "_" + object_id.str.replace("-", "NEG"). *)
Definition row_out (include_release_name : bool) (r : row) (z : option Z) : option text :=
  str_add
    (str_add
       (str_add
          (if include_release_name then str_add (cast_str (fst (fst r))) (Some [95])
           else Some [])
          (option_map py_int_str z))
       (Some [95]))
    (pl_str_replace (pystr "-") (pystr "NEG") (cast_str (snd r))).

(* ================================================================== *)
(** * Properties *)

Example scalar_doc_1 :
  make_id_str_scalar (TInt 12345) (pystr "abc-123") (Some (pystr "Q1_R1"))
  = pystr "Q1_R1_12345_abcNEG123".
Proof. vm_compute. reflexivity. Qed.

Example scalar_multi :
  make_id_str_scalar (TStr (pystr "7")) (pystr "a-b-c") None
  = pystr "7_aNEGbNEGc".
Proof. vm_compute. reflexivity. Qed.

Example scalar_neg : make_id_str_scalar (TInt (-30)) (pystr "x") None
  = pystr "-30_x".
Proof. vm_compute. reflexivity. Qed.

Example scalar_nul : make_id_str_scalar (TInt 1) (pystr "a" ++ [0]) None
  = pystr "1_a".
Proof. vm_compute. reflexivity. Qed.

Example batch_doc :
  make_id_str_batch
    (frame_of_rows [(PStr (pystr "Q1_R1"), PInt 1, PStr (pystr "a-1"));
                    (PStr (pystr "Q1_R1"), PInt 2, PStr (pystr "b-2"))]) true
  = Ok [Some (pystr "Q1_R1_1_aNEG1"); Some (pystr "Q1_R1_2_bNEG2")].
Proof. vm_compute. reflexivity. Qed.

Example batch_doc_nr :
  make_id_str_batch
    (frame_of_rows [(PStr (pystr "Q1_R1"), PInt 1, PStr (pystr "a-1"));
                    (PStr (pystr "Q1_R1"), PInt 2, PStr (pystr "b-2"))]) false
  = Ok [Some (pystr "1_aNEG1"); Some (pystr "2_bNEG2")].
Proof. vm_compute. reflexivity. Qed.

Example batch_first_only :
  make_id_str_batch
    (frame_of_rows [(PStr (pystr "Q1_R1"), PInt 1, PStr (pystr "a-b-c"))]) true
  = Ok [Some (pystr "Q1_R1_1_aNEGb-c")].
Proof. vm_compute. reflexivity. Qed.

Example batch_str_tile :
  make_id_str_batch
    (frame_of_rows [(PNull, PStr (pystr "-007"), PStr (pystr "x"))]) false
  = Ok [Some (pystr "-7_x")].
Proof. vm_compute. reflexivity. Qed.

Example batch_bad :
  make_id_str_batch
    (frame_of_rows [(PNull, PInt 3, PStr (pystr "x"));
                    (PNull, PStr (pystr "abc"), PStr (pystr "y"))]) false
  = Err InvalidOperationError.
Proof. vm_compute. reflexivity. Qed.

Example sha_empty :
  get_hash_id [] [] =
  Ok (pystr "e3b0c44298fc1c149afbf4c8996fb92427ae41e4649b934ca495991b7852b855").
Proof. vm_compute. reflexivity. Qed.

Example sha_abc :
  get_hash_id (pystr "ab") (pystr "c") =
  Ok (pystr "ba7816bf8f01cfea414140de5dae2223b00361a396177a9cb410ff61f20015ad").
Proof. vm_compute. reflexivity. Qed.

Example sha_two_blocks :
  get_hash_id (pystr "abcdbcdecdefdefgefghfghighijhijkijkljklmklmnlmnomnopnopq") [] =
  Ok (pystr "248d6a61d20638b8e5c026930c3e6039a33ce45964ff2167f6ecedd419db06c1").
Proof. vm_compute. reflexivity. Qed.

Example utf8_multi :
  get_hash_id [0xE9; 0x20AC] [0x1F600] =
  Ok (pystr "df9226927fd572c1ee66eec85de1bb139497614899f36e4e90474cb71f6ef9d0").
Proof. vm_compute. reflexivity. Qed.

(* ------------------------------------------------------------------ *)
(** ** Helper lemmas: replacement, NumPy strings, decimal round trip *)

Lemma firstn_one_eq (x c : Z) (s : text) :
  firstn (length [c]) (x :: s) = [c] <-> x = c.
Proof. simpl. split; [intros H; injection H; auto | intros ->; reflexivity]. Qed.

Lemma replace_fuel_all (c : Z) (new : text) : forall fuel (s : text),
  (length s < fuel)%nat -> replace_fuel fuel None [c] new s = repl_char c new s.
Proof.
  induction fuel as [|fuel IH]; intros s Hlen; [simpl in Hlen; lia|].
  destruct s as [|x s]; [reflexivity|].
  simpl in Hlen. cbn [replace_fuel].
  rewrite bool_decide_false by discriminate.
  case_bool_decide as Hd.
  - destruct Hd as [_ Hd]. apply firstn_one_eq in Hd. subst x.
    cbn [length drop option_map].
    unfold repl_char; simpl. rewrite Z.eqb_refl. f_equal.
    rewrite drop_0. apply IH. lia.
  - unfold repl_char; simpl.
    destruct (Z.eqb_spec x c) as [->|Hne].
    + exfalso. apply Hd. split; [discriminate|reflexivity].
    + simpl. f_equal. apply IH. lia.
Qed.

Lemma replace_all_char (c : Z) (new s : text) :
  replace None [c] new s = repl_char c new s.
Proof. apply replace_fuel_all. lia. Qed.

Lemma repl_char_absent (c : Z) (new s : text) :
  ~ In c s -> repl_char c new s = s.
Proof.
  induction s as [|x s IH]; intros Hn; [reflexivity|].
  unfold repl_char in *; simpl.
  destruct (Z.eqb_spec x c) as [->|Hne]; [exfalso; apply Hn; left; auto|].
  simpl. f_equal. apply IH. intros Hi. apply Hn. right. exact Hi.
Qed.

Lemma replace_fuel_zero (c : Z) (new : text) : forall fuel (s : text),
  replace_fuel fuel (Some O) [c] new s = s.
Proof. intros [|fuel] [|x s]; reflexivity. Qed.

Lemma replace_fuel_first (c : Z) (new : text) : forall fuel (s : text),
  (length s < fuel)%nat -> (count_occ Z.eq_dec s c <= 1)%nat ->
  replace_fuel fuel (Some 1%nat) [c] new s = repl_char c new s.
Proof.
  induction fuel as [|fuel IH]; intros s Hlen Hc; [simpl in Hlen; lia|].
  destruct s as [|x s]; [reflexivity|].
  simpl in Hlen. cbn [replace_fuel].
  rewrite bool_decide_false by discriminate.
  case_bool_decide as Hd.
  - destruct Hd as [_ Hd]. apply firstn_one_eq in Hd. subst x.
    rewrite count_occ_cons_eq in Hc by reflexivity.
    cbn [length drop option_map Nat.pred].
    unfold repl_char; simpl. rewrite Z.eqb_refl. f_equal.
    rewrite replace_fuel_zero, drop_0.
    symmetry. apply repl_char_absent. intros Hi.
    apply (count_occ_In Z.eq_dec) in Hi. lia.
  - unfold repl_char; simpl.
    destruct (Z.eqb_spec x c) as [->|Hne].
    + exfalso. apply Hd. split; [discriminate|reflexivity].
    + simpl. f_equal. apply IH; [lia|].
      rewrite count_occ_cons_neq in Hc by exact Hne. exact Hc.
Qed.

Lemma replace_first_char (c : Z) (new s : text) :
  (count_occ Z.eq_dec s c <= 1)%nat ->
  replace (Some 1%nat) [c] new s = repl_char c new s.
Proof. intros H. apply replace_fuel_first; [lia|exact H]. Qed.

(** A text with no trailing NUL survives the trip through NumPy. *)
Lemma np_str_id (s : text) : last s <> Some 0 -> np_str s = s.
Proof.
  intros H. unfold np_str.
  destruct (rev s) as [|x r] eqn:E.
  - simpl. rewrite <- (rev_involutive s), E. reflexivity.
  - assert (Hs : s = rev r ++ [x]).
    { rewrite <- (rev_involutive s), E. reflexivity. }
    assert (x <> 0).
    { intros ->. apply H. rewrite Hs. apply last_snoc. }
    destruct x; [congruence| |]; cbn [strip_trailing_nul_rev];
      rewrite <- E, rev_involutive; reflexivity.
Qed.

Lemma digits_of_uint_text (u : Decimal.uint) :
  digits_of (uint_text u) = Some u.
Proof. induction u; cbn [uint_text digits_of]; try rewrite IHu; reflexivity. Qed.

Ltac parse_digits_case :=
  match goal with
  | |- parse_int (uint_text ?u) = _ =>
      pose proof (digits_of_uint_text u) as Hd;
      cbn [uint_text] in Hd |- *; unfold parse_int; rewrite Hd; reflexivity
  | |- parse_int (45 :: uint_text ?u) = _ =>
      pose proof (digits_of_uint_text u) as Hd;
      cbn [uint_text] in Hd |- *; unfold parse_int; rewrite Hd; reflexivity
  end.

(** The Int64 cast parses back what [str(int)] prints. *)
Lemma parse_int_py_int_str (z : Z) : parse_int (py_int_str z) = Some z.
Proof.
  pose proof (DecimalZ.of_to z) as H. unfold py_int_str.
  destruct (Z.to_int z) as [u|u] eqn:E.
  - destruct u; [simpl in H; subst z; discriminate E|..];
      rewrite <- H; parse_digits_case.
  - destruct u; [simpl in H; subst z; discriminate E|..];
      rewrite <- H; parse_digits_case.
Qed.

(** The NEG substitution never ends a text with NUL. *)
Lemma last_repl_char_hyphen (o : text) :
  last o <> Some 0 -> last (repl_char 45 (pystr "NEG") o) <> Some 0.
Proof.
  destruct (rev o) as [|x r] eqn:E.
  - assert (o = []) as -> by (rewrite <- (rev_involutive o), E; reflexivity).
    intros _. discriminate.
  - assert (Ho : o = rev r ++ [x]) by (rewrite <- (rev_involutive o), E; reflexivity).
    rewrite Ho, last_snoc. intros Hx.
    unfold repl_char. rewrite flat_map_app, last_app. simpl.
    destruct (x =? 45); simpl; [vm_compute; discriminate | exact Hx].
Qed.

(** The scalar variant ends with the NEG-substituted object id, for an
    object id without a trailing NUL. *)
Lemma scalar_formula (t : tile) (o : text) (r : option text) :
  last o <> Some 0 ->
  make_id_str_scalar t o r =
  (match r with Some r => r ++ [95] | None => [] end) ++
  fmt_tile t ++ [95] ++ repl_char 45 (pystr "NEG") o.
Proof.
  intros Ho. unfold make_id_str_scalar, np_char_replace.
  rewrite (np_str_id o Ho). change (pystr "-") with [45].
  rewrite replace_all_char, np_str_id by (apply last_repl_char_hyphen; exact Ho).
  reflexivity.
Qed.

(** [C1] make_id_str(t, o, r) is r + "_" + str(t) + "_" + o with every
    hyphen replaced by NEG (no prefix when r is absent), an integer and
    its canonical text giving the same output.  The NumPy call drops a
    trailing NUL of the object id: tile 1, object id "a\x00", no release
    name gives "1_a", not "1_a\x00". *)
Theorem C1_scalar_drops_trailing_nul :
  make_id_str_scalar (TInt 1) (pystr "a" ++ [0]) None = pystr "1_a" /\
  make_id_str_scalar (TInt 1) (pystr "a" ++ [0]) None <>
    py_int_str 1 ++ [95] ++ repl_char 45 (pystr "NEG") (pystr "a" ++ [0]).
Proof. split; vm_compute; [reflexivity | discriminate]. Qed.

(** An integer tile index and its canonical text are formatted alike. *)
Lemma scalar_int_as_text (z : Z) (o : text) (r : option text) :
  make_id_str_scalar (TInt z) o r = make_id_str_scalar (TStr (py_int_str z)) o r.
Proof. reflexivity. Qed.

(** [C2] Both variants replace every hyphen of the object id with NEG.
    The batch variant's polars [str.replace] replaces only the first:
    release Q1_R1, tile 1, object id "a-b-c" gives "Q1_R1_1_aNEGb-c",
    where the scalar variant gives "Q1_R1_1_aNEGbNEGc". *)
Theorem C2_batch_replaces_first_hyphen_only :
  make_id_str_batch
    (frame_of_rows [(PStr (pystr "Q1_R1"), PInt 1, PStr (pystr "a-b-c"))]) true
  = Ok [Some (pystr "Q1_R1_1_aNEGb-c")] /\
  make_id_str_scalar (TInt 1) (pystr "a-b-c") (Some (pystr "Q1_R1"))
  = pystr "Q1_R1_1_aNEGbNEGc".
Proof. split; vm_compute; reflexivity. Qed.

(** [C4] The docstring examples as stated do not hold: the hyphen of
    "abc-123" is replaced. *)
Lemma C4_docstring_examples_false :
  ~ (make_id_str_scalar (TInt 12345) (pystr "abc-123") (Some (pystr "Q1_R1"))
       = pystr "Q1_R1_12345_abc-123" /\
     make_id_str_scalar (TInt 12345) (pystr "abc-123") None
       = pystr "12345_abc-123").
Proof. vm_compute. intros [H _]. discriminate H. Qed.

(** [C4] amended: make_id_str(12345, "abc-123", "Q1_R1") is
    "Q1_R1_12345_abcNEG123" and make_id_str(12345, "abc-123") is
    "12345_abcNEG123". *)
Theorem C4_docstring_examples_actual :
  make_id_str_scalar (TInt 12345) (pystr "abc-123") (Some (pystr "Q1_R1"))
    = pystr "Q1_R1_12345_abcNEG123" /\
  make_id_str_scalar (TInt 12345) (pystr "abc-123") None
    = pystr "12345_abcNEG123".
Proof. split; vm_compute; reflexivity. Qed.

(** [C7] The scalar variant does not validate a text tile index: any
    text, integer-like or not, is copied unchanged between the prefix and
    the "_" + object-id part, and the result is always a text. *)
Theorem C7_scalar_text_tile_passthrough (s o : text) (r : option text) :
  make_id_str_scalar (TStr s) o r =
  (match r with Some r => r ++ [95] | None => [] end) ++
  s ++ [95] ++ np_char_replace o (pystr "-") (pystr "NEG").
Proof. reflexivity. Qed.

(* ------------------------------------------------------------------ *)
(** ** The batch variant, column by column *)

Lemma col_release (rows : list row) :
  col (frame_of_rows rows) (pystr "release_name") = Ok (List.map (fun r => fst (fst r)) rows).
Proof. reflexivity. Qed.

Lemma col_tile (rows : list row) :
  col (frame_of_rows rows) (pystr "tile_index") = Ok (List.map (fun r => snd (fst r)) rows).
Proof. reflexivity. Qed.

Lemma col_object (rows : list row) :
  col (frame_of_rows rows) (pystr "object_id") = Ok (List.map (fun r => snd r) rows).
Proof. reflexivity. Qed.

Lemma map_result_ok {A B} (f : A -> result B) (g : A -> B) (l : list A) :
  Forall (fun x => f x = Ok (g x)) l -> map_result f l = Ok (List.map g l).
Proof.
  induction 1 as [|x l Hx _ IH]; [reflexivity|].
  simpl. rewrite Hx. simpl. rewrite IH. reflexivity.
Qed.

Lemma map_result_err {A B} (f : A -> result B) (l : list A) :
  (exists e, map_result f l = Err e) <-> Exists (fun x => exists e, f x = Err e) l.
Proof.
  induction l as [|x l IH]; simpl.
  - split; [intros [e He]; discriminate | intros H; inversion H].
  - rewrite Exists_cons. destruct (f x) as [y|e] eqn:Ef; simpl.
    + destruct (map_result f l) as [ys|e] eqn:El; simpl.
      * split; [intros [e He]; discriminate|].
        intros [[e He]|H]; [discriminate|]. apply IH in H. destruct H; discriminate.
      * split; [intros _; right; apply IH; eauto | intros _; eauto].
    + split; [intros _; left; eauto | intros _; eauto].
Qed.

Lemma zip_with_map {A B C D} (f : B -> C -> D) (g : A -> B) (h : A -> C) (l : list A) :
  zip_with f (List.map g l) (List.map h l) = List.map (fun x => f (g x) (h x)) l.
Proof. induction l as [|x l IH]; simpl; [reflexivity | rewrite IH; reflexivity]. Qed.

Lemma repeat_as_map {A B} (y : B) (l : list A) :
  repeat y (length l) = List.map (fun _ => y) l.
Proof. induction l as [|x l IH]; simpl; [reflexivity | rewrite IH; reflexivity]. Qed.

Lemma cast_int64_int_like (v : pval) :
  int_like_tile v -> cast_int64 v = Ok (tile_z v) /\
  option_map py_int_str (tile_z v) = Some (fmt_tile (tile_of_pval v)).
Proof.
  intros (z & Hz & [-> | ->]); simpl.
  - rewrite Hz. split; reflexivity.
  - rewrite parse_int_py_int_str, Hz. split; reflexivity.
Qed.

Lemma batch_row_eq (inc : bool) (r : row) :
  row_ok inc r ->
  str_add
    (str_add
       (str_add
          (if inc then str_add (cast_str (fst (fst r))) (Some [95]) else Some [])
          (option_map py_int_str (tile_z (snd (fst r)))))
       (Some [95]))
    (pl_str_replace (pystr "-") (pystr "NEG") (cast_str (snd r)))
  = Some (row_scalar inc r).
Proof.
  destruct r as [[rn t] o]. intros (Hrn & Ht & s & -> & Hc & Hl). simpl.
  destruct (cast_int64_int_like t Ht) as [_ ->].
  unfold pl_str_replace. change (pystr "-") with [45]. simpl.
  rewrite (replace_first_char 45 _ s Hc), (scalar_formula _ _ _ Hl).
  destruct inc.
  - destruct (Hrn eq_refl) as [r ->]. simpl. rewrite <- !app_assoc. reflexivity.
  - simpl. rewrite <- !app_assoc. reflexivity.
Qed.

(** [C3] counterexample: a text tile index is integer-convertible, but
    the batch variant prints the Int64 value back ("007" becomes "7")
    while the scalar variant keeps the text. *)
Lemma C3_text_tile_renormalised :
  cast_int64 (PStr (pystr "007")) = Ok (Some 7) /\
  make_id_str_batch
    (frame_of_rows [(PStr (pystr "Q1_R1"), PStr (pystr "007"), PStr (pystr "x"))]) true
  <> Ok (List.map (fun r => Some (row_scalar true r))
           [(PStr (pystr "Q1_R1"), PStr (pystr "007"), PStr (pystr "x"))]).
Proof. split; vm_compute; [reflexivity | discriminate]. Qed.

(** [C3] amended: for a batch whose tile indices are Int64 integers or
    their canonical text, whose object ids are texts with at most one
    hyphen and no trailing NUL, and whose release names are texts when
    they are included, the batch variant returns one text per row, in row
    order, equal to the scalar variant on that row (prefix on every row
    iff [include_release_name]). *)
Theorem C3_batch_rowwise (inc : bool) (rows : list row) :
  Forall (row_ok inc) rows ->
  make_id_str_batch (frame_of_rows rows) inc =
  Ok (List.map (fun r => Some (row_scalar inc r)) rows).
Proof.
  intros Hrows. unfold make_id_str_batch.
  rewrite col_tile. cbn [bind].
  rewrite (map_result_ok cast_int64 tile_z).
  2:{ apply Forall_map. eapply Forall_impl; [exact Hrows|].
      intros [[rn t] o] (_ & Ht & _). apply (cast_int64_int_like t Ht). }
  rewrite length_map.
  destruct inc; cbn [bind]; [rewrite col_release; cbn [bind]|];
    rewrite col_object; cbn [bind]; f_equal; unfold series_add;
    rewrite ?List.map_map, !repeat_as_map, !zip_with_map;
    apply map_ext_in; intros r Hr;
    rewrite Forall_forall in Hrows;
    first [apply (batch_row_eq true r) | apply (batch_row_eq false r)];
    apply Hrows; apply list_elem_of_In; exact Hr.
Qed.

Lemma C3_witness :
  Forall (row_ok true)
    [(PStr (pystr "Q1_R1"), PInt 1, PStr (pystr "a-1"));
     (PStr (pystr "Q1_R1"), PStr (pystr "2"), PStr (pystr "b-2"))] /\
  make_id_str_batch
    (frame_of_rows [(PStr (pystr "Q1_R1"), PInt 1, PStr (pystr "a-1"));
                    (PStr (pystr "Q1_R1"), PStr (pystr "2"), PStr (pystr "b-2"))]) true
  = Ok (List.map (fun r => Some (row_scalar true r))
          [(PStr (pystr "Q1_R1"), PInt 1, PStr (pystr "a-1"));
           (PStr (pystr "Q1_R1"), PStr (pystr "2"), PStr (pystr "b-2"))]).
Proof.
  assert (H : Forall (row_ok true)
    [(PStr (pystr "Q1_R1"), PInt 1, PStr (pystr "a-1"));
     (PStr (pystr "Q1_R1"), PStr (pystr "2"), PStr (pystr "b-2"))]).
  { constructor; [|constructor; [|constructor]]; simpl;
      (split; [intros _; eexists; reflexivity|]);
      (split; [|eexists; split; [reflexivity|];
                split; [vm_compute; lia | vm_compute; discriminate]]).
    - exists 1. split; [reflexivity | left; reflexivity].
    - exists 2. split; [reflexivity | right; reflexivity]. }
  split; [exact H | apply (C3_batch_rowwise true _ H)].
Defined.

Lemma map_result_err_at {A B} (f : A -> result B) (l : list A) (e : exn) :
  map_result f l = Err e -> Exists (fun x => f x = Err e) l.
Proof.
  induction l as [|x l IH]; simpl; [discriminate|].
  destruct (f x) eqn:Ef; simpl; [|intros [= ->]; left; exact Ef].
  destruct (map_result f l); simpl; [discriminate|].
  intros H. right. apply IH. exact H.
Qed.

Lemma cast_int64_err (v : pval) (e : exn) :
  cast_int64 v = Err e -> e = InvalidOperationError.
Proof.
  destruct v as [|z|sv]; simpl; [discriminate| |].
  - destruct (in_int64 z); congruence.
  - destruct (parse_int sv); [destruct (in_int64 _)|]; congruence.
Qed.

(** [C6] The batch variant raises exactly when the Int64 cast of some
    row's tile index fails, whatever the other rows hold, and the error is
    then the cast's InvalidOperationError: casting the release_name and
    object_id columns to text never fails. *)
Theorem C6_batch_error_iff_tile_cast_error (inc : bool) (rows : list row) (e : exn) :
  make_id_str_batch (frame_of_rows rows) inc = Err e <->
  e = InvalidOperationError /\
  Exists (fun r => exists e', cast_int64 (snd (fst r)) = Err e') rows.
Proof.
  assert (Hb : make_id_str_batch (frame_of_rows rows) inc = Err e <->
               map_result cast_int64 (List.map (fun r => snd (fst r)) rows) = Err e).
  { unfold make_id_str_batch. rewrite col_tile. cbn [bind].
    destruct inc; cbn [bind]; [rewrite col_release; cbn [bind]|];
      rewrite col_object; cbn [bind];
      destruct (map_result cast_int64 _) as [ti64|e']; cbn [bind];
      split; intros H; congruence. }
  rewrite Hb. split.
  - intros H. split.
    + apply map_result_err_at in H. apply Exists_exists in H.
      destruct H as (v & _ & Hv). exact (cast_int64_err v e Hv).
    + assert (He : exists e', map_result cast_int64 (List.map (fun r => snd (fst r)) rows) = Err e')
        by eauto.
      apply map_result_err in He.
      apply (Exists_map (fun r : row => snd (fst r)) (fun v => exists e', cast_int64 v = Err e'))
        in He.
      exact He.
  - intros [-> Hx].
    apply (Exists_map (fun r : row => snd (fst r)) (fun v => exists e', cast_int64 v = Err e'))
      in Hx.
    apply map_result_err in Hx. destruct Hx as [e' He'].
    assert (Hk : e' = InvalidOperationError).
    { pose proof He' as Hx. apply map_result_err_at in Hx. apply Exists_exists in Hx.
      destruct Hx as (v & _ & Hv). exact (cast_int64_err v e' Hv). }
    subst e'. exact He'.
Qed.

(* ------------------------------------------------------------------ *)
(** ** get_hash_id *)

Lemma utf8_char_ok (c : Z) :
  is_surrogate c = false -> exists bs, utf8_char c = Ok bs.
Proof.
  unfold is_surrogate, utf8_char. intros Hs.
  destruct (c <? 0x80); [eauto|]. destruct (c <? 0x800); [eauto|].
  rewrite Hs. destruct (c <? 0x10000); eauto.
Qed.

Lemma map_result_total {A B} (f : A -> result B) (l : list A) :
  Forall (fun x => exists y, f x = Ok y) l -> exists ys, map_result f l = Ok ys.
Proof.
  induction 1 as [|x l [y Hy] _ [ys IH]]; [exists []; reflexivity|].
  exists (y :: ys). simpl. rewrite Hy. simpl. rewrite IH. reflexivity.
Qed.

Lemma encode_ok (s : text) :
  Forall (fun c => is_surrogate c = false) s -> exists bs, encode s = Ok bs.
Proof.
  intros Hs. destruct (map_result_total utf8_char s) as [bss Hb].
  { eapply Forall_impl; [exact Hs|]. intros c. apply utf8_char_ok. }
  exists (List.concat bss). unfold encode. rewrite Hb. reflexivity.
Qed.

Lemma be_bytes_length (n : nat) (x : Z) : length (SHA256.be_bytes n x) = n.
Proof. unfold SHA256.be_bytes. rewrite length_map, length_seq. reflexivity. Qed.

Lemma be_bytes_range (n : nat) (x : Z) :
  Forall (fun b => 0 <= b < 256) (SHA256.be_bytes n x).
Proof.
  unfold SHA256.be_bytes. apply Forall_map, Forall_forall. intros i _.
  change 255 with (Z.ones 8). rewrite Z.land_ones by lia.
  apply Z.mod_pos_bound. reflexivity.
Qed.

Lemma sha256_length (msg : list Z) : length (SHA256.sha256 msg) = 32%nat.
Proof.
  unfold SHA256.sha256, SHA256.digest_bytes.
  rewrite !length_app, !be_bytes_length. reflexivity.
Qed.

Lemma sha256_range (msg : list Z) :
  Forall (fun b => 0 <= b < 256) (SHA256.sha256 msg).
Proof.
  unfold SHA256.sha256, SHA256.digest_bytes.
  rewrite !Forall_app; repeat split; apply be_bytes_range.
Qed.

Lemma hex_digit_lower (n : Z) : 0 <= n < 16 -> lower_hex (hex_digit n).
Proof.
  unfold hex_digit, lower_hex. intros Hn.
  destruct (Z.ltb_spec n 10); [left|right]; lia.
Qed.

Lemma hexdigest_length (bs : list Z) : length (hexdigest bs) = (2 * length bs)%nat.
Proof. induction bs as [|b bs IH]; simpl; [reflexivity | rewrite IH; lia]. Qed.

Lemma hexdigest_lower (bs : list Z) :
  Forall (fun b => 0 <= b < 256) bs -> Forall lower_hex (hexdigest bs).
Proof.
  induction 1 as [|b bs Hb _ IH]; [constructor|]. simpl.
  constructor; [|constructor; [|exact IH]]; apply hex_digit_lower.
  - rewrite Z.shiftr_div_pow2 by lia.
    split; [apply Z.div_pos | apply Z.div_lt_upper_bound]; lia.
  - change 15 with (Z.ones 4). rewrite Z.land_ones by lia.
    apply Z.mod_pos_bound. reflexivity.
Qed.

(** [C5] counterexample: a text holding a lone surrogate (Python
    "\ud800") makes [str.encode()] raise. *)
Lemma C5_surrogate_raises : get_hash_id [0xD800] [] = Err UnicodeEncodeError.
Proof. vm_compute. reflexivity. Qed.

(** [C5] amended: for texts a, b whose concatenation holds no surrogate
    code point, get_hash_id(a, extra_key=b) raises nothing (empty texts
    included) and returns the lowercase hexadecimal SHA-256 digest, 64
    characters long, of the UTF-8 bytes of a + b. *)
Theorem C5_get_hash_id_sha256_hex (a b : text) :
  Forall (fun c => is_surrogate c = false) (a ++ b) ->
  exists bytes, encode (a ++ b) = Ok bytes /\
    get_hash_id a b = Ok (hexdigest (SHA256.sha256 bytes)) /\
    length (hexdigest (SHA256.sha256 bytes)) = 64%nat /\
    Forall lower_hex (hexdigest (SHA256.sha256 bytes)).
Proof.
  intros H. destruct (encode_ok _ H) as [bs Hbs]. exists bs.
  split; [exact Hbs|]. split; [unfold get_hash_id; rewrite Hbs; reflexivity|].
  split; [rewrite hexdigest_length, sha256_length; reflexivity|].
  apply hexdigest_lower, sha256_range.
Qed.

Lemma C5_witness :
  Forall (fun c => is_surrogate c = false) (pystr "Q1_R1_5_obj1" ++ pystr "release-42") /\
  exists bytes, encode (pystr "Q1_R1_5_obj1" ++ pystr "release-42") = Ok bytes /\
    get_hash_id (pystr "Q1_R1_5_obj1") (pystr "release-42") =
      Ok (hexdigest (SHA256.sha256 bytes)) /\
    length (hexdigest (SHA256.sha256 bytes)) = 64%nat /\
    Forall lower_hex (hexdigest (SHA256.sha256 bytes)).
Proof.
  assert (H : Forall (fun c => is_surrogate c = false)
                (pystr "Q1_R1_5_obj1" ++ pystr "release-42"))
    by (vm_compute; repeat constructor).
  split; [exact H | apply (C5_get_hash_id_sha256_hex _ _ H)].
Defined.

(** [C10] Subject id and extra key are joined with no separator: two
    pairs with the same concatenation get the same hash id. *)
Theorem C10_same_concat_same_hash (a b c d : text) :
  a ++ b = c ++ d -> get_hash_id a b = get_hash_id c d.
Proof. intros H. unfold get_hash_id. rewrite H. reflexivity. Qed.

Lemma C10_witness :
  pystr "ab" ++ pystr "c" = pystr "a" ++ pystr "bc" /\
  get_hash_id (pystr "ab") (pystr "c") = get_hash_id (pystr "a") (pystr "bc").
Proof.
  split; [reflexivity | apply C10_same_concat_same_hash; reflexivity].
Defined.

(* ------------------------------------------------------------------ *)
(** ** The batch call leaves its input alone *)

Lemma cast_str_pval_of_cell (ids : list (option text)) :
  List.map cast_str (List.map pval_of_cell ids) = ids.
Proof. induction ids as [|[t|] ids IH]; simpl; rewrite ?IH; reflexivity. Qed.

(** [C8] Run on a DataFrame stored at [l], the batch variant changes no
    object that existed before the call (the input DataFrame included),
    and on success returns a freshly allocated Series holding the ids. *)
Theorem C8_batch_read_only (st st' : store) (l : nat) (inc : bool) (df : frame)
    (r : result nat) :
  store_wf st ->
  heap st !! l = Some (ODataFrame df) ->
  make_id_str_batch_io l inc st = (r, st') ->
  (forall k o, heap st !! k = Some o -> heap st' !! k = Some o) /\
  (forall out, r = Ok out ->
     heap st !! out = None /\
     exists ids, make_id_str_batch df inc = Ok ids /\
       heap st' !! out = Some (OSeries (pystr "unique_id") ids)).
Proof.
  intros Hwf Hl Hrun.
  unfold make_id_str_batch_io, mbind, load_frame, lift, alloc in Hrun.
  rewrite Hl in Hrun.
  destruct (make_id_str_batch df inc) as [ids|e] eqn:Eids.
  - cbn [heap next_loc] in Hrun. rewrite lookup_insert_eq in Hrun.
    injection Hrun as <- <-. cbn [heap next_loc].
    split.
    + intros k o Hk.
      assert (k < next_loc st)%nat.
      { destruct (Nat.lt_ge_cases k (next_loc st)) as [?|Hge]; [assumption|].
        rewrite (Hwf k Hge) in Hk. discriminate. }
      rewrite !lookup_insert_ne by lia. exact Hk.
    + intros out [= <-]. split; [apply Hwf; lia|].
      exists ids. split; [reflexivity|].
      rewrite lookup_insert_eq. do 2 f_equal. apply cast_str_pval_of_cell.
  - injection Hrun as <- <-. split; [auto | discriminate].
Qed.

Lemma doc_store_wf : store_wf doc_store.
Proof. intros k Hk. simpl in *. apply lookup_singleton_ne. lia. Qed.

Lemma C8_witness :
  store_wf doc_store /\
  (forall k o, heap doc_store !! k = Some o ->
     heap (snd (make_id_str_batch_io 0 true doc_store)) !! k = Some o) /\
  (forall out, fst (make_id_str_batch_io 0 true doc_store) = Ok out ->
     heap doc_store !! out = None /\
     exists ids, make_id_str_batch
                   (frame_of_rows [(PStr (pystr "Q1_R1"), PInt 1, PStr (pystr "a-1"));
                                   (PStr (pystr "Q1_R1"), PInt 2, PStr (pystr "b-2"))])
                   true = Ok ids /\
       heap (snd (make_id_str_batch_io 0 true doc_store)) !! out
       = Some (OSeries (pystr "unique_id") ids)).
Proof.
  split; [exact doc_store_wf|].
  apply (C8_batch_read_only doc_store _ 0 true _ _ doc_store_wf);
    [reflexivity | apply surjective_pairing].
Defined.

(* ------------------------------------------------------------------ *)
(** ** The dataset descriptor *)

Lemma lower_hex_check (h : text) : forallb lower_hexb h = true -> Forall lower_hex h.
Proof.
  induction h as [|c h IH]; simpl; [constructor|].
  rewrite andb_true_iff. intros [Hc Hh]. constructor; [|exact (IH Hh)].
  unfold lower_hexb in Hc. unfold lower_hex.
  apply orb_true_iff in Hc. rewrite !andb_true_iff, !Z.leb_le in Hc. lia.
Qed.

(** [C9] The descriptor is a plain record: its locator is a DOI
    ("doi:" scheme), not a raw URL, and its registry maps exactly one
    file, morphology_catalogue.parquet, to an "md5:"-tagged checksum of
    32 lowercase hex digits; whatever the cache directory resolves to. *)
Theorem C9_descriptor_doi_md5 (os_cache : text -> text) :
  (exists doi, pooch_base_url (euclid_q1_morphology os_cache) = pystr "doi:" ++ doi) /\
  dom (pooch_registry (euclid_q1_morphology os_cache))
    = {[ pystr "morphology_catalogue.parquet" ]} /\
  exists h, pooch_registry (euclid_q1_morphology os_cache)
              !! pystr "morphology_catalogue.parquet" = Some (pystr "md5:" ++ h) /\
    length h = 32%nat /\ Forall lower_hex h.
Proof.
  split; [exists (pystr "10.5281/zenodo.15106473/"); vm_compute; reflexivity|].
  split; [apply dom_singleton_L|].
  exists (pystr "79e7880d5989e05ec23205782c30025a").
  split; [apply lookup_singleton_eq|].
  split; [reflexivity|].
  apply lower_hex_check. vm_compute. reflexivity.
Qed.

(* ================================================================== *)
(** * Further properties of the code *)

(* ------------------------------------------------------------------ *)
(** ** get_hash_id: errors, ASCII inputs, UTF-8 and concatenation *)

Lemma utf8_char_err (c : Z) (e : exn) :
  utf8_char c = Err e <-> e = UnicodeEncodeError /\ is_surrogate c = true.
Proof.
  unfold utf8_char, is_surrogate.
  destruct (c <? 0x80) eqn:E1.
  { split; [discriminate|]. intros [_ H]. apply Z.ltb_lt in E1.
    rewrite andb_true_iff, !Z.leb_le in H. lia. }
  destruct (c <? 0x800) eqn:E2.
  { split; [discriminate|]. intros [_ H]. apply Z.ltb_lt in E2.
    rewrite andb_true_iff, !Z.leb_le in H. lia. }
  destruct ((0xD800 <=? c) && (c <=? 0xDFFF)) eqn:E3.
  - split; [intros [= <-]; auto | intros [-> _]; reflexivity].
  - destruct (c <? 0x10000); (split; [discriminate | intros [_ H]; discriminate]).
Qed.

Lemma get_hash_id_encode_err (a b : text) (e : exn) :
  get_hash_id a b = Err e <-> map_result utf8_char (a ++ b) = Err e.
Proof.
  unfold get_hash_id, encode.
  destruct (map_result utf8_char (a ++ b)); simpl; split; congruence.
Qed.

(** [X1] get_hash_id raises exactly when subject_id + extra_key holds a
    surrogate code point, and then the error is UnicodeEncodeError. *)
Theorem X1_get_hash_id_error_iff_surrogate (a b : text) (e : exn) :
  get_hash_id a b = Err e <->
  e = UnicodeEncodeError /\ Exists (fun c => is_surrogate c = true) (a ++ b).
Proof.
  rewrite get_hash_id_encode_err. split.
  - intros H. apply map_result_err_at in H.
    assert (e = UnicodeEncodeError) as ->.
    { apply Exists_exists in H. destruct H as (c & _ & Hc).
      apply utf8_char_err in Hc. tauto. }
    split; [reflexivity|].
    eapply Exists_impl; [exact H|]. intros c Hc. apply utf8_char_err in Hc. tauto.
  - intros [-> H].
    destruct (proj2 (map_result_err utf8_char (a ++ b))) as [e' He'].
    { eapply Exists_impl; [exact H|]. intros c Hc. exists UnicodeEncodeError.
      apply utf8_char_err. auto. }
    pose proof (map_result_err_at _ _ _ He') as Hx.
    apply Exists_exists in Hx. destruct Hx as (c & _ & Hc).
    apply utf8_char_err in Hc. destruct Hc as [-> _]. exact He'.
Qed.

Lemma concat_singletons (s : text) : List.concat (List.map (fun c => [c]) s) = s.
Proof. induction s as [|c s IH]; simpl; [reflexivity | rewrite IH; reflexivity]. Qed.

Lemma encode_ascii (s : text) :
  Forall (fun c => 0 <= c < 128) s -> encode s = Ok s.
Proof.
  intros Hs. unfold encode.
  rewrite (map_result_ok utf8_char (fun c => [c])).
  - simpl. rewrite concat_singletons. reflexivity.
  - eapply Forall_impl; [exact Hs|]. intros c Hc. unfold utf8_char.
    simpl in Hc. replace (c <? 0x80) with true by (symmetry; apply Z.ltb_lt; lia). reflexivity.
Qed.

(** [X2] For ASCII texts the UTF-8 bytes are the code points themselves:
    get_hash_id(a, extra_key=b) is the hex SHA-256 of the code points of
    a + b. *)
Theorem X2_get_hash_id_ascii (a b : text) :
  Forall (fun c => 0 <= c < 128) (a ++ b) ->
  get_hash_id a b = Ok (hexdigest (SHA256.sha256 (a ++ b))).
Proof. intros H. unfold get_hash_id. rewrite (encode_ascii _ H). reflexivity. Qed.

Lemma ascii_check (s : text) :
  forallb (fun c => (0 <=? c) && (c <? 128)) s = true -> Forall (fun c => 0 <= c < 128) s.
Proof.
  induction s as [|c s IH]; simpl; [constructor|].
  rewrite !andb_true_iff, Z.leb_le, Z.ltb_lt. intros [Hc Hs]. constructor; auto.
Qed.

Lemma X2_witness :
  Forall (fun c => 0 <= c < 128) (pystr "Q1_R1_5_obj1" ++ pystr "release-42") /\
  get_hash_id (pystr "Q1_R1_5_obj1") (pystr "release-42")
  = Ok (hexdigest (SHA256.sha256 (pystr "Q1_R1_5_obj1" ++ pystr "release-42"))).
Proof.
  assert (H : Forall (fun c => 0 <= c < 128)
                (pystr "Q1_R1_5_obj1" ++ pystr "release-42")).
  { apply ascii_check. vm_compute. reflexivity. }
  split; [exact H | apply (X2_get_hash_id_ascii _ _ H)].
Defined.

Lemma map_result_app {A B} (f : A -> result B) (l1 l2 : list A) :
  map_result f (l1 ++ l2) =
  (xs <-? map_result f l1 ;; ys <-? map_result f l2 ;; Ok (xs ++ ys)).
Proof.
  induction l1 as [|x l1 IH]; simpl.
  - destruct (map_result f l2); reflexivity.
  - destruct (f x); simpl; [|reflexivity]. rewrite IH.
    destruct (map_result f l1); simpl; [|reflexivity].
    destruct (map_result f l2); reflexivity.
Qed.

(** [X3] The UTF-8 encoding of a concatenation is the concatenation of
    the encodings (and fails iff one of them fails). *)
Theorem X3_encode_app (a b : text) :
  encode (a ++ b) = (x <-? encode a ;; y <-? encode b ;; Ok (x ++ y)).
Proof.
  unfold encode. rewrite map_result_app.
  destruct (map_result utf8_char a); simpl; [|reflexivity].
  destruct (map_result utf8_char b); simpl; [|reflexivity].
  rewrite concat_app. reflexivity.
Qed.

(* ------------------------------------------------------------------ *)
(** ** SHA-256 message padding and blocks *)

(** [X4] The padded message starts with the message, is 9 to 72 bytes
    longer, and its length is a multiple of 64. *)
Theorem X4_pad_shape (msg : list Z) :
  Z.of_nat (length (SHA256.pad msg)) mod 64 = 0 /\
  (length msg + 9 <= length (SHA256.pad msg) <= length msg + 72)%nat /\
  firstn (length msg) (SHA256.pad msg) = msg.
Proof.
  unfold SHA256.pad.
  set (k := (55 - Z.of_nat (length msg)) mod 64).
  assert (Hk : 0 <= k < 64) by (apply Z.mod_pos_bound; lia).
  rewrite !length_app, repeat_length, be_bytes_length. cbn [length].
  split; [|split].
  - rewrite !Nat2Z.inj_add, Z2Nat.id by lia. cbn [Z.of_nat Pos.of_succ_nat].
    subst k. Z.div_mod_to_equations. lia.
  - lia.
  - rewrite firstn_app, Nat.sub_diag, firstn_all. simpl. apply app_nil_r.
Qed.

Lemma blocks_cons (f : nat) (p : list Z) :
  p <> [] -> SHA256.blocks (S f) p = take 64 p :: SHA256.blocks f (drop 64 p).
Proof. destruct p; [congruence | reflexivity]. Qed.

Lemma blocks_chunks : forall (n fuel : nat) (p : list Z),
  length p = (64 * n)%nat -> (n <= fuel)%nat ->
  Forall (fun b => length b = 64%nat) (SHA256.blocks fuel p) /\
  List.concat (SHA256.blocks fuel p) = p /\
  length (SHA256.blocks fuel p) = n.
Proof.
  induction n as [|n IH]; intros fuel p Hp Hn.
  - destruct p; [|simpl in Hp; lia]. destruct fuel; repeat split; constructor.
  - destruct fuel as [|fuel]; [lia|].
    rewrite blocks_cons by (intros ->; simpl in Hp; lia).
    destruct (IH fuel (drop 64 p)) as (H1 & H2 & H3); [rewrite length_drop; lia | lia |].
    split; [constructor; [rewrite length_take; lia | exact H1]|].
    split; [simpl; rewrite H2; apply take_drop | simpl; rewrite H3; reflexivity].
Qed.

(** [X5] The compression loop of sha256 runs over 64-byte blocks that
    together are exactly the padded message, length/64 of them. *)
Theorem X5_sha256_blocks (msg : list Z) :
  let p := SHA256.pad msg in
  Forall (fun b => length b = 64%nat) (SHA256.blocks (length p) p) /\
  List.concat (SHA256.blocks (length p) p) = p /\
  (64 * length (SHA256.blocks (length p) p))%nat = length p.
Proof.
  intros p. destruct (X4_pad_shape msg) as [Hm _]. fold p in Hm.
  assert (Hmod : (length p mod 64 = 0)%nat).
  { apply Nat2Z.inj. rewrite Nat2Z.inj_mod. exact Hm. }
  pose proof (Nat.div_mod_eq (length p) 64) as Hd.
  destruct (blocks_chunks (length p / 64) (length p) p) as (H1 & H2 & H3); [lia | lia |].
  repeat split; [exact H1 | exact H2 | rewrite H3; lia].
Qed.

(* ------------------------------------------------------------------ *)
(** ** make_id_str, scalar variant: hyphens and NUL padding *)

Lemma strip_trailing_nul_rev_in (r : text) (x : Z) :
  In x (strip_trailing_nul_rev r) -> In x r.
Proof.
  induction r as [|c r IH]; simpl; [tauto|].
  destruct c; simpl; auto.
Qed.

Lemma np_str_in (s : text) (x : Z) : In x (np_str s) -> In x s.
Proof.
  unfold np_str. intros H. apply in_rev in H.
  apply strip_trailing_nul_rev_in in H. apply in_rev. exact H.
Qed.

Lemma repl_char_no_hyphen (s : text) : ~ In 45 (repl_char 45 (pystr "NEG") s).
Proof.
  unfold repl_char. intros H. apply in_flat_map in H. destruct H as (y & _ & Hy).
  destruct (Z.eqb_spec y 45) as [Heq|Hne].
  - vm_compute in Hy. destruct Hy as [Hy|[Hy|[Hy|[]]]]; discriminate Hy.
  - destruct Hy as [Hy|[]]. congruence.
Qed.

Lemma np_char_replace_no_hyphen (o : text) :
  ~ In 45 (np_char_replace o (pystr "-") (pystr "NEG")).
Proof.
  unfold np_char_replace. intros H. apply np_str_in in H.
  change (pystr "-") with [45] in H. rewrite replace_all_char in H.
  exact (repl_char_no_hyphen _ H).
Qed.

(** [X6] Every hyphen of a scalar id comes from the release name or the
    tile index text: the object-id part holds none. *)
Theorem X6_scalar_hyphens_from_prefix_and_tile (t : tile) (o : text) (r : option text) :
  count_occ Z.eq_dec (make_id_str_scalar t o r) 45 =
  (count_occ Z.eq_dec (match r with Some r => r ++ [95%Z] | None => [] end) 45%Z +
   count_occ Z.eq_dec (fmt_tile t) 45%Z)%nat.
Proof.
  unfold make_id_str_scalar. rewrite !count_occ_app.
  rewrite (proj1 (count_occ_not_In Z.eq_dec _ 45) (np_char_replace_no_hyphen o)).
  replace (count_occ Z.eq_dec [95] 45) with 0%nat by reflexivity. lia.
Qed.

Lemma np_str_trailing_nuls (o : text) (n : nat) : np_str (o ++ repeat 0 n) = np_str o.
Proof.
  unfold np_str. rewrite rev_app_distr, rev_repeat.
  induction n as [|n IH]; simpl; [reflexivity | exact IH].
Qed.

(** [X7] Trailing NUL characters of the object id never reach a scalar
    id: appending any number of them changes nothing. *)
Theorem X7_scalar_ignores_trailing_nuls (t : tile) (o : text) (r : option text) (n : nat) :
  make_id_str_scalar t (o ++ repeat 0 n) r = make_id_str_scalar t o r.
Proof.
  unfold make_id_str_scalar, np_char_replace. rewrite np_str_trailing_nuls. reflexivity.
Qed.

(* ------------------------------------------------------------------ *)
(** ** make_id_str, batch variant: row by row *)

Lemma map_result_length {A B} (f : A -> result B) (l : list A) (ys : list B) :
  map_result f l = Ok ys -> length ys = length l.
Proof.
  revert ys. induction l as [|x l IH]; intros ys; simpl; [intros [= <-]; reflexivity|].
  destruct (f x); simpl; [|discriminate].
  destruct (map_result f l) eqn:E; simpl; [|discriminate].
  intros [= <-]. simpl. f_equal. apply IH. reflexivity.
Qed.

Lemma map_result_lookup {A B} (f : A -> result B) (l : list A) (ys : list B) (i : nat) (x : A) :
  map_result f l = Ok ys -> l !! i = Some x -> exists y, ys !! i = Some y /\ f x = Ok y.
Proof.
  revert ys i. induction l as [|a l IH]; intros ys i; simpl; [intros _ [=]|].
  destruct (f a) as [y|] eqn:Ef; simpl; [|discriminate].
  destruct (map_result f l) as [ys'|] eqn:E; simpl; [|discriminate].
  intros [= <-]. destruct i as [|i]; simpl.
  - intros [= <-]. eauto.
  - intros Hi. apply (IH ys' i eq_refl Hi).
Qed.

Lemma lookup_list_map {A B} (g : A -> B) (l : list A) (i : nat) (x : A) :
  l !! i = Some x -> List.map g l !! i = Some (g x).
Proof.
  revert i. induction l as [|a l IH]; intros [|i]; simpl; try discriminate.
  - intros [= <-]. reflexivity.
  - apply IH.
Qed.

Lemma zip3 (P O : row -> option text) (Q : option Z -> option text) (c : option text)
    (rows : list row) (zs : list (option Z)) :
  length zs = length rows ->
  zip_with str_add
    (zip_with str_add (zip_with str_add (List.map P rows) (List.map Q zs))
       (repeat c (length rows)))
    (List.map O rows)
  = zip_with (fun r z => str_add (str_add (str_add (P r) (Q z)) c) (O r)) rows zs.
Proof.
  revert zs. induction rows as [|r rows IH]; intros [|z zs] H; simpl in *;
    try discriminate; [reflexivity|].
  f_equal. apply IH. lia.
Qed.

Lemma str_add_None (x y : option text) : str_add x y = None <-> x = None \/ y = None.
Proof. destruct x, y; simpl; intuition discriminate. Qed.

Lemma option_map_None {A B} (f : A -> B) (x : option A) : option_map f x = None <-> x = None.
Proof. destruct x; simpl; intuition discriminate. Qed.

Lemma cast_str_None (v : pval) : cast_str v = None <-> v = PNull.
Proof. destruct v; simpl; intuition discriminate. Qed.

(** The batch expression evaluated row by row. *)
Lemma batch_rows_ok (inc : bool) (rows : list row) (ids : list (option text)) :
  make_id_str_batch (frame_of_rows rows) inc = Ok ids <->
  exists zs, map_result cast_int64 (List.map (fun r => snd (fst r)) rows) = Ok zs /\
             ids = zip_with (row_out inc) rows zs.
Proof.
  unfold make_id_str_batch. rewrite col_tile. cbn [bind].
  destruct (map_result cast_int64 (List.map (fun r => snd (fst r)) rows)) as [zs|e] eqn:Ez;
    destruct inc; cbn [bind]; try (rewrite col_release; cbn [bind]).
  1,2: rewrite col_object; cbn [bind];
       pose proof (map_result_length _ _ _ Ez) as Hl; rewrite length_map in Hl;
       unfold series_add; rewrite length_map, ?List.map_map, ?(repeat_as_map (Some []));
       rewrite zip3 by exact Hl;
       (split; [intros [= <-]; exists zs; split; reflexivity
               | intros (zs' & [= <-] & ->); reflexivity]).
  all: split; [discriminate | intros (zs & H & _); discriminate].
Qed.

(** [X8] On success the batch variant returns exactly one value per row:
    no row is dropped or added. *)
Theorem X8_batch_one_value_per_row (inc : bool) (rows : list row) (ids : list (option text)) :
  make_id_str_batch (frame_of_rows rows) inc = Ok ids -> length ids = length rows.
Proof.
  intros H. apply batch_rows_ok in H. destruct H as (zs & Hz & ->).
  rewrite length_zip_with. apply map_result_length in Hz. rewrite length_map in Hz. rewrite Hz. apply Nat.min_id.
Qed.

Lemma X8_witness :
  make_id_str_batch
    (frame_of_rows [(PNull, PInt 1, PStr (pystr "a")); (PNull, PNull, PStr (pystr "b"))]) false
  = Ok [Some (pystr "1_a"); None] /\
  length [Some (pystr "1_a"); None] =
  length [(PNull, PInt 1, PStr (pystr "a")); (PNull, PNull, PStr (pystr "b"))].
Proof.
  assert (H : make_id_str_batch
    (frame_of_rows [(PNull, PInt 1, PStr (pystr "a")); (PNull, PNull, PStr (pystr "b"))]) false
    = Ok [Some (pystr "1_a"); None]) by (vm_compute; reflexivity).
  split; [exact H | apply (X8_batch_one_value_per_row _ _ _ H)].
Defined.

(** [X9] On success, the id of row i is null exactly when that row's
    tile_index or object_id is null, or its release_name is null while
    include_release_name is true. *)
Theorem X9_batch_null_iff (inc : bool) (rows : list row) (ids : list (option text))
    (i : nat) (rn t o : pval) :
  make_id_str_batch (frame_of_rows rows) inc = Ok ids ->
  rows !! i = Some (rn, t, o) ->
  (ids !! i = Some None <-> t = PNull \/ o = PNull \/ (inc = true /\ rn = PNull)).
Proof.
  intros H Hi. apply batch_rows_ok in H. destruct H as (zs & Hz & ->).
  destruct (map_result_lookup _ _ _ i t Hz) as (z & Hzi & Hc).
  { apply (lookup_list_map (fun r => snd (fst r)) _ _ _ Hi). }
  assert (E : zip_with (row_out inc) rows zs !! i = Some (row_out inc (rn, t, o) z))
    by (apply lookup_zip_with_Some; eauto).
  rewrite E.
  transitivity (row_out inc (rn, t, o) z = None);
    [split; [intros Hs; injection Hs as Hs; exact Hs | intros ->; reflexivity]|].
  assert (Hzt : z = None <-> t = PNull).
  { destruct t as [|k|sv]; simpl in Hc.
    - injection Hc as <-. tauto.
    - destruct (in_int64 k); [injection Hc as <-|discriminate]. split; discriminate.
    - destruct (parse_int sv); [destruct (in_int64 _); [injection Hc as <-|discriminate]|discriminate].
      split; discriminate. }
  unfold row_out, pl_str_replace.
  rewrite !str_add_None, !option_map_None, !cast_str_None, Hzt.
  assert (N0 : Some (@nil Z) <> None) by discriminate.
  assert (N1 : Some [95] <> None) by discriminate.
  destruct inc; [rewrite str_add_None, cast_str_None|]; cbn [fst snd];
    intuition discriminate.
Qed.

Lemma X9_witness :
  make_id_str_batch
    (frame_of_rows [(PNull, PInt 1, PStr (pystr "a")); (PNull, PNull, PStr (pystr "b"))]) false
  = Ok [Some (pystr "1_a"); None] /\
  [(PNull, PInt 1, PStr (pystr "a")); (PNull, PNull, PStr (pystr "b"))] !! 1%nat
  = Some (PNull, PNull, PStr (pystr "b")) /\
  ([Some (pystr "1_a"); None] !! 1%nat = Some None <->
   PNull = PNull \/ PStr (pystr "b") = PNull \/ (false = true /\ PNull = PNull)).
Proof.
  assert (H : make_id_str_batch
    (frame_of_rows [(PNull, PInt 1, PStr (pystr "a")); (PNull, PNull, PStr (pystr "b"))]) false
    = Ok [Some (pystr "1_a"); None]) by (vm_compute; reflexivity).
  split; [exact H|]. split; [reflexivity|].
  apply (X9_batch_null_iff _ _ _ 1 _ _ _ H). reflexivity.
Defined.

Lemma row_out_prefix (r : row) (z : option Z) :
  str_add (str_add (cast_str (fst (fst r))) (Some [95])) (row_out false r z) = row_out true r z.
Proof.
  unfold row_out.
  destruct (cast_str (fst (fst r))), (option_map py_int_str z),
    (pl_str_replace (pystr "-") (pystr "NEG") (cast_str (snd r))); simpl; try reflexivity.
  rewrite <- !app_assoc. reflexivity.
Qed.

(** [X10] include_release_name only prepends: whenever the call with
    include_release_name=True succeeds, the call with False succeeds too,
    and each id of the first is release_name + "_" + the id of the second
    (null when either is null). *)
Theorem X10_release_prefix_composes (rows : list row) (idt : list (option text)) :
  make_id_str_batch (frame_of_rows rows) true = Ok idt ->
  exists idf, make_id_str_batch (frame_of_rows rows) false = Ok idf /\
    idt = zip_with (fun r x => str_add (str_add (cast_str (fst (fst r))) (Some [95])) x)
            rows idf.
Proof.
  intros H. apply batch_rows_ok in H. destruct H as (zs & Hz & ->).
  exists (zip_with (row_out false) rows zs). split.
  - apply batch_rows_ok. eauto.
  - clear Hz. revert zs. induction rows as [|r rows IH]; intros [|z zs]; try reflexivity.
    simpl. rewrite row_out_prefix. f_equal. apply IH.
Qed.

Lemma X10_witness :
  make_id_str_batch (frame_of_rows [(PStr (pystr "Q1_R1"), PInt 3, PStr (pystr "-5"))]) true
  = Ok [Some (pystr "Q1_R1_3_NEG5")] /\
  exists idf,
    make_id_str_batch (frame_of_rows [(PStr (pystr "Q1_R1"), PInt 3, PStr (pystr "-5"))]) false
    = Ok idf /\
    [Some (pystr "Q1_R1_3_NEG5")] =
    zip_with (fun r x => str_add (str_add (cast_str (fst (fst r))) (Some [95])) x)
      [(PStr (pystr "Q1_R1"), PInt 3, PStr (pystr "-5"))] idf.
Proof.
  assert (H : make_id_str_batch
    (frame_of_rows [(PStr (pystr "Q1_R1"), PInt 3, PStr (pystr "-5"))]) true
    = Ok [Some (pystr "Q1_R1_3_NEG5")]) by (vm_compute; reflexivity).
  split; [exact H | apply (X10_release_prefix_composes _ _ H)].
Defined.

(** [X11] With include_release_name=False the call reads only the
    tile_index and object_id columns: two frames that agree on those
    columns give the same result, whatever their release_name column (the
    column may even be absent). *)
Theorem X11_no_release_read (df df' : frame) :
  col df (pystr "tile_index") = col df' (pystr "tile_index") ->
  col df (pystr "object_id") = col df' (pystr "object_id") ->
  make_id_str_batch df false = make_id_str_batch df' false.
Proof.
  intros Ht Ho. unfold make_id_str_batch. rewrite Ht, Ho. reflexivity.
Qed.

Lemma X11_witness :
  let df := frame_of_rows [(PNull, PInt 3, PStr (pystr "a"))] in
  let df' := [(pystr "object_id", [PStr (pystr "a")]); (pystr "tile_index", [PInt 3])] in
  col df (pystr "tile_index") = col df' (pystr "tile_index") /\
  col df (pystr "object_id") = col df' (pystr "object_id") /\
  make_id_str_batch df false = make_id_str_batch df' false.
Proof.
  intros df df'.
  assert (Ht : col df (pystr "tile_index") = col df' (pystr "tile_index")) by reflexivity.
  assert (Ho : col df (pystr "object_id") = col df' (pystr "object_id")) by reflexivity.
  split; [exact Ht|]. split; [exact Ho|]. apply (X11_no_release_read df df' Ht Ho).
Defined.

Lemma replace_fuel_split (c : Z) (new b : text) : forall (a : text) fuel,
  (length (a ++ c :: b) < fuel)%nat -> ~ In c a ->
  replace_fuel fuel (Some 1%nat) [c] new (a ++ c :: b) = a ++ new ++ b.
Proof.
  induction a as [|x a IH]; intros [|fuel] Hl Hn; try (simpl in Hl; lia).
  - cbn [app replace_fuel].
    rewrite bool_decide_false by discriminate.
    rewrite bool_decide_true by (split; [discriminate | reflexivity]).
    cbn [length drop option_map Nat.pred].
    rewrite drop_0, replace_fuel_zero. reflexivity.
  - cbn [app replace_fuel].
    rewrite bool_decide_false by discriminate.
    rewrite bool_decide_false.
    2:{ intros [_ H]. apply firstn_one_eq in H. apply Hn. left. exact H. }
    cbn [app]. f_equal. apply IH.
    + simpl in Hl |- *. lia.
    + intros H. apply Hn. right. exact H.
Qed.

(** [X12] object_id.str.replace("-", "NEG") rewrites the first hyphen and
    keeps everything around it, later hyphens included. *)
Theorem X12_first_hyphen_rewritten (a b : text) :
  ~ In 45 a ->
  pl_str_replace (pystr "-") (pystr "NEG") (Some (a ++ 45 :: b)) = Some (a ++ pystr "NEG" ++ b).
Proof.
  intros Ha. unfold pl_str_replace, replace. cbn [option_map]. f_equal.
  apply replace_fuel_split; [lia | exact Ha].
Qed.

Lemma X12_witness :
  ~ In 45 (pystr "ab") /\
  pl_str_replace (pystr "-") (pystr "NEG") (Some (pystr "ab" ++ 45 :: pystr "c-d"))
  = Some (pystr "ab" ++ pystr "NEG" ++ pystr "c-d").
Proof.
  assert (H : ~ In 45 (pystr "ab")) by (vm_compute; intros [Hx|[Hx|[]]]; discriminate).
  split; [exact H | apply (X12_first_hyphen_rewritten _ _ H)].
Defined.

(** [X13] The strict Int64 cast reads the decimal text of an integer as
    that integer: a tile_index given as str(z) casts exactly as z itself,
    an error when z is out of the Int64 range. *)
Theorem X13_cast_int64_decimal_text (z : Z) :
  cast_int64 (PStr (py_int_str z)) = cast_int64 (PInt z).
Proof. unfold cast_int64. rewrite parse_int_py_int_str. reflexivity. Qed.

Lemma col_err (df : frame) (name : text) (e : exn) :
  col df name = Err e -> e = ColumnNotFoundError.
Proof. unfold col. destruct (List.find _ df) as [[? ?]|]; congruence. Qed.

(** [X14] A frame missing the tile_index or object_id column (or the
    release_name column when include_release_name is true) makes the call
    raise ColumnNotFoundError, before any value is cast. *)
Theorem X14_missing_column_raises (df : frame) (inc : bool) :
  col df (pystr "tile_index") = Err ColumnNotFoundError \/
  col df (pystr "object_id") = Err ColumnNotFoundError \/
  (inc = true /\ col df (pystr "release_name") = Err ColumnNotFoundError) ->
  make_id_str_batch df inc = Err ColumnNotFoundError.
Proof.
  intros H. unfold make_id_str_batch.
  destruct (col df (pystr "tile_index")) as [ti|e] eqn:Et; cbn [bind];
    [|f_equal; exact (col_err _ _ _ Et)].
  destruct inc; cbn [bind].
  - destruct (col df (pystr "release_name")) as [rn|e] eqn:Er; cbn [bind];
      [|f_equal; exact (col_err _ _ _ Er)].
    destruct (col df (pystr "object_id")) as [oi|e] eqn:Eo; cbn [bind];
      [|f_equal; exact (col_err _ _ _ Eo)].
    exfalso. destruct H as [H|[H|[_ H]]]; congruence.
  - destruct (col df (pystr "object_id")) as [oi|e] eqn:Eo; cbn [bind];
      [|f_equal; exact (col_err _ _ _ Eo)].
    exfalso. destruct H as [H|[H|[H _]]]; congruence.
Qed.

Lemma X14_witness :
  (col [(pystr "tile_index", [PStr (pystr "abc")])] (pystr "tile_index") = Err ColumnNotFoundError \/
   col [(pystr "tile_index", [PStr (pystr "abc")])] (pystr "object_id") = Err ColumnNotFoundError \/
   (false = true /\
    col [(pystr "tile_index", [PStr (pystr "abc")])] (pystr "release_name") = Err ColumnNotFoundError)) /\
  make_id_str_batch [(pystr "tile_index", [PStr (pystr "abc")])] false = Err ColumnNotFoundError.
Proof.
  assert (H : col [(pystr "tile_index", [PStr (pystr "abc")])] (pystr "tile_index") = Err ColumnNotFoundError \/
   col [(pystr "tile_index", [PStr (pystr "abc")])] (pystr "object_id") = Err ColumnNotFoundError \/
   (false = true /\
    col [(pystr "tile_index", [PStr (pystr "abc")])] (pystr "release_name") = Err ColumnNotFoundError))
    by (right; left; reflexivity).
  split; [exact H | apply (X14_missing_column_raises _ _ H)].
Defined.

Lemma map_Forall2_eq {A B} (g : A -> B) (l1 l2 : list A) :
  Forall2 (fun x y => g x = g y) l1 l2 -> List.map g l1 = List.map g l2.
Proof. induction 1; simpl; congruence. Qed.

(** [X15] The tile_index values matter only through their Int64 cast:
    rows that agree on release_name and object_id and whose tile values
    cast to the same Int64 (e.g. "+7", "007" and 7) give the same result, error
    included. *)
Theorem X15_tile_only_through_cast (inc : bool) (rows1 rows2 : list row) :
  Forall2 (fun r1 r2 => fst (fst r1) = fst (fst r2) /\ snd r1 = snd r2 /\
                        cast_int64 (snd (fst r1)) = cast_int64 (snd (fst r2))) rows1 rows2 ->
  make_id_str_batch (frame_of_rows rows1) inc = make_id_str_batch (frame_of_rows rows2) inc.
Proof.
  intros H.
  assert (Hr : List.map (fun r => fst (fst r)) rows1 = List.map (fun r => fst (fst r)) rows2)
    by (apply map_Forall2_eq; eapply Forall2_impl; [exact H | cbv beta; tauto]).
  assert (Ho : List.map (fun r => snd r) rows1 = List.map (fun r => snd r) rows2)
    by (apply map_Forall2_eq; eapply Forall2_impl; [exact H | cbv beta; tauto]).
  assert (Hc : List.map (fun r => cast_int64 (snd (fst r))) rows1 =
               List.map (fun r => cast_int64 (snd (fst r))) rows2)
    by (apply map_Forall2_eq; eapply Forall2_impl; [exact H | cbv beta; tauto]).
  assert (Hm : map_result cast_int64 (List.map (fun r => snd (fst r)) rows1) =
               map_result cast_int64 (List.map (fun r => snd (fst r)) rows2)).
  { clear Hr Ho. revert rows2 H Hc. induction rows1 as [|r1 rows1 IH]; intros [|r2 rows2] H Hc;
      try reflexivity; try (inversion H; fail).
    simpl in Hc |- *. injection Hc as Hc1 Hc2. rewrite Hc1.
    inversion H as [|? ? ? ? _ H']; subst. rewrite (IH rows2 H' Hc2). reflexivity. }
  unfold make_id_str_batch. rewrite !col_tile, !col_release, !col_object. cbn [bind].
  rewrite Hr, Ho, Hm, !length_map, (Forall2_length _ _ _ H). reflexivity.
Qed.

Lemma X15_witness :
  Forall2 (fun r1 r2 => fst (fst r1) = fst (fst r2) /\ snd r1 = snd r2 /\
                        cast_int64 (snd (fst r1)) = cast_int64 (snd (fst r2)))
    [(PStr (pystr "Q1_R1"), PStr (pystr "+7"), PStr (pystr "a-1"))]
    [(PStr (pystr "Q1_R1"), PInt 7, PStr (pystr "a-1"))] /\
  make_id_str_batch (frame_of_rows [(PStr (pystr "Q1_R1"), PStr (pystr "+7"), PStr (pystr "a-1"))]) true
  = make_id_str_batch (frame_of_rows [(PStr (pystr "Q1_R1"), PInt 7, PStr (pystr "a-1"))]) true.
Proof.
  assert (H : Forall2 (fun r1 r2 => fst (fst r1) = fst (fst r2) /\ snd r1 = snd r2 /\
                        cast_int64 (snd (fst r1)) = cast_int64 (snd (fst r2)))
    [(PStr (pystr "Q1_R1"), PStr (pystr "+7"), PStr (pystr "a-1"))]
    [(PStr (pystr "Q1_R1"), PInt 7, PStr (pystr "a-1"))]).
  { constructor; [split; [reflexivity | split; [reflexivity | vm_compute; reflexivity]] | constructor]. }
  split; [exact H | apply (X15_tile_only_through_cast true _ _ H)].
Defined.
